(** * fastbootd: transport, status replies, data phase and command dispatch

    Shallow embedding of [FastbootDevice] (fastboot/device/fastboot_device.h)
    and of the transport adaptors it drives.  Only the class declaration is
    present in the tree; the member bodies ([fastboot_device.cpp]), the
    command handlers ([commands.cpp]), the USB client ([usb_client.cpp]) and
    the UDP transport ([udp.cpp]) are not, and are modelled from the
    specification where the claims need them (each such definition says so
    in its doc comment). *)

From Stdlib Require Import String Ascii List Arith Lia Bool.
Import ListNotations.
Open Scope list_scope.

(** Bytes as the code has them: [std::vector<char>]. *)
Definition bytes := list ascii.

(** ** Transport *)

(** Modelled from the spec: the [Transport] class (transport.h, not in the
    tree), section 4.1.  The host side is an inbound queue of logical
    messages (one USB transfer, one UDP packet, one TCP frame); [None] is a
    transport error / disconnect seen by a read.  Every successful [Write]
    appends one message to the outbound log.  [tr_block] is the preferred
    block size.  [tr_link] is how many more messages the link to the host
    still carries before it drops (device detach, endpoint stall, timeout;
    sections 4.1 and 4.2); [None] when it does not drop.  Once it has
    dropped, every [Read] and [Write] reports an error. *)
Record Transport := mkTransport {
  tr_open : bool;
  tr_in : list (option bytes);
  tr_out : list bytes;
  tr_block : nat;
  tr_link : option nat
}.

Definition set_in (t : Transport) (i : list (option bytes)) : Transport :=
  mkTransport (tr_open t) i (tr_out t) (tr_block t) (tr_link t).

(** The link still carries a message. *)
Definition link_up (l : option nat) : bool :=
  match l with Some 0 => false | _ => true end.

(** The link after carrying one message. *)
Definition link_use (l : option nat) : option nat :=
  match l with Some (S k) => Some k | _ => l end.

(** The transport can move data: open, and its link has not dropped. *)
Definition usable (t : Transport) : bool := tr_open t && link_up (tr_link t).

(** Modelled from the spec: [Read(buffer, maxLen) -> bytesRead | Error].
    A message longer than [maxLen] is returned in part, its rest stays
    queued; a shorter one is returned whole (a short read).  A read on a
    closed transport or a dropped link, an error event or an exhausted host
    all report an error; an error event leaves the transport unusable. *)
Definition Read (t : Transport) (maxLen : nat) : Transport * option bytes :=
  if usable t then
    match tr_in t with
    | [] => (mkTransport false [] (tr_out t) (tr_block t) (tr_link t), None)
    | None :: rest => (mkTransport false rest (tr_out t) (tr_block t) (tr_link t), None)
    | Some p :: rest =>
        if length p <=? maxLen then (set_in t rest, Some p)
        else (set_in t (Some (skipn maxLen p) :: rest), Some (firstn maxLen p))
    end
  else (t, None).

(** Modelled from the spec: [Write(buffer, len) -> Ok | Error]; atomic,
    never truncating: the whole buffer goes out as one message, or, on a
    closed transport or a dropped link, nothing does and an error is
    reported. *)
Definition Write (t : Transport) (buf : bytes) : Transport * bool :=
  if usable t then
    (mkTransport true (tr_in t) (tr_out t ++ [buf]) (tr_block t)
       (link_use (tr_link t)), true)
  else (t, false).

(** Modelled from the spec: [Close() -> Ok]; releases the inbound queue. *)
Definition Close (t : Transport) : Transport :=
  mkTransport false [] (tr_out t) (tr_block t) (tr_link t).

(** ** Status replies *)

(** [FastbootResult] (commands.h): the four reply kinds. *)
Inductive FastbootResult := OKAY | FAIL | DATA | INFO.

Definition ascii_of_string (s : string) : bytes := list_ascii_of_string s.

Definition result_prefix (r : FastbootResult) : bytes :=
  ascii_of_string
    match r with
    | OKAY => "OKAY" | FAIL => "FAIL" | DATA => "DATA" | INFO => "INFO"
    end.

(** [FB_RESPONSE_SZ]: a reply is at most 64 bytes. *)
Definition FB_RESPONSE_SZ := 64.
Definition kResponseReasonSize := 4.
Definition kMaxMessageSize := FB_RESPONSE_SZ - kResponseReasonSize.

(** Modelled from the spec: [FastbootDevice::WriteStatus] (declared at
    fastboot_device.h:37, body not in the tree); 4-byte prefix followed by
    up to 60 bytes of the message, written as one transport message. *)
Definition WriteStatus (t : Transport) (result : FastbootResult)
    (message : string) : Transport * bool :=
  let msg := firstn kMaxMessageSize (ascii_of_string message) in
  Write t (result_prefix result ++ msg).

(** ** Data phase *)

(** Modelled from the spec: the read half of [FastbootDevice::HandleData]
    (declared at fastboot_device.h:38), section 4.5.  Each round asks the
    transport for [min(block, remaining)] bytes; a short or failed read
    stops the loop.  [fuel] bounds the rounds: with a positive block size
    every round consumes at least one byte, so [remaining + 1] rounds
    always suffice; a block size of 0 never makes progress and fails. *)
Fixpoint read_loop (fuel : nat) (t : Transport) (remaining : nat)
    : Transport * option bytes :=
  match remaining with
  | 0 => (t, Some [])
  | _ =>
    match fuel with
    | 0 => (t, None)
    | S f =>
      let want := Nat.min (tr_block t) remaining in
      match Read t want with
      | (t1, Some got) =>
          if length got =? want then
            match read_loop f t1 (remaining - want) with
            | (t2, Some more) => (t2, Some (got ++ more))
            | (t2, None) => (t2, None)
            end
          else (t1, None)
      | (t1, None) => (t1, None)
      end
    end
  end.

(** Modelled from the spec: the write half of [HandleData]; the buffer goes
    out in block-sized [Write] calls, any failed write stops the loop. *)
Fixpoint write_loop (fuel : nat) (t : Transport) (data : bytes)
    : Transport * bool :=
  match data with
  | [] => (t, true)
  | _ =>
    match fuel with
    | 0 => (t, false)
    | S f =>
      let n := Nat.min (tr_block t) (length data) in
      match Write t (firstn n data) with
      | (t1, true) => write_loop f t1 (skipn n data)
      | (t1, false) => (t1, false)
      end
    end
  end.

(** Modelled from the spec: [bool HandleData(bool read, std::vector<char>* data)].
    The buffer is passed in and handed back (it is the caller's vector);
    its length is the negotiated size.  On a failed read the partial
    contents are discarded: the buffer comes back empty. *)
Definition HandleData (t : Transport) (read : bool) (data : bytes)
    : Transport * bytes * bool :=
  if read then
    match read_loop (S (length data)) t (length data) with
    | (t', Some got) => (t', got, true)
    | (t', None) => (t', [], false)
    end
  else
    let '(t', ok) := write_loop (S (length data)) t data in (t', data, ok).

(** The data phase as the spec words it: a run of [Read] calls, each asking
    for [min(block, remaining)] bytes and receiving exactly that many, until
    [remaining] bytes have come in. *)
Inductive ReadsExactly : Transport -> nat -> Transport -> bytes -> Prop :=
| RE_done t : ReadsExactly t 0 t []
| RE_chunk t t1 t2 rem got more :
    0 < rem ->
    Read t (Nat.min (tr_block t) rem) = (t1, Some got) ->
    length got = Nat.min (tr_block t) rem ->
    ReadsExactly t1 (rem - Nat.min (tr_block t) rem) t2 more ->
    ReadsExactly t rem t2 (got ++ more).

(** ... and its write counterpart: block-sized [Write] calls, each
    succeeding, that together carry the buffer. *)
Inductive WritesExactly : Transport -> bytes -> Transport -> Prop :=
| WE_done t : WritesExactly t [] t
| WE_chunk t t1 t2 data :
    data <> [] ->
    Write t (firstn (Nat.min (tr_block t) (length data)) data) = (t1, true) ->
    WritesExactly t1 (skipn (Nat.min (tr_block t) (length data)) data) t2 ->
    WritesExactly t data t2.

(** ** Sizes on the wire: eight hex digits *)

Definition hex_digit (n : nat) : ascii :=
  nth n (list_ascii_of_string "0123456789abcdef") "0"%char.

Definition hex_value (c : ascii) : option nat :=
  let k := nat_of_ascii c in
  if (48 <=? k) && (k <=? 57) then Some (k - 48)
  else if (97 <=? k) && (k <=? 102) then Some (k - 87)
  else if (65 <=? k) && (k <=? 70) then Some (k - 55)
  else None.

Fixpoint hex_digits (k n : nat) : bytes :=
  match k with
  | 0 => []
  | S k' => hex_digits k' (n / 16) ++ [hex_digit (n mod 16)]
  end.

(** [StringPrintf("%08x", size)]. *)
Definition hex8 (n : nat) : bytes := hex_digits 8 n.

Definition parse_hex (s : bytes) : option nat :=
  fold_left (fun acc c =>
               match acc, hex_value c with
               | Some a, Some v => Some (a * 16 + v)
               | _, _ => None
               end) s (Some 0).

(** Modelled from the spec: the size argument of [download:<8 hex digits>]. *)
Definition parse_hex8 (s : bytes) : option nat :=
  if length s =? 8 then parse_hex s else None.

(** ** The device *)

(** Modelled from the spec: the dispatcher states of section 4.6. *)
Inductive SessionState := IDLE | COMMAND | DOWNLOAD | UPLOAD | CLOSED.

(** The mutable members of [FastbootDevice]: [transport_], [download_data_],
    [upload_data_], and the dispatcher state. *)
Record DeviceState := mkDeviceState {
  transport_ : Transport;
  download_data_ : bytes;
  upload_data_ : bytes;
  state_ : SessionState
}.

Definition set_transport (ds : DeviceState) (t : Transport) : DeviceState :=
  mkDeviceState t (download_data_ ds) (upload_data_ ds) (state_ ds).
Definition set_download_data (ds : DeviceState) (b : bytes) : DeviceState :=
  mkDeviceState (transport_ ds) b (upload_data_ ds) (state_ ds).
(** [set_upload_data] (fastboot_device.h:41). *)
Definition set_upload_data (ds : DeviceState) (b : bytes) : DeviceState :=
  mkDeviceState (transport_ ds) (download_data_ ds) b (state_ ds).
Definition set_state (ds : DeviceState) (s : SessionState) : DeviceState :=
  mkDeviceState (transport_ ds) (download_data_ ds) (upload_data_ ds) s.

(** Modelled from the spec: what a [CommandHandler] may ask of the
    dispatcher (section 4.6 (a)-(c)): a direct OKAY (optionally placing
    bytes in the upload buffer) or FAIL, a download or upload data phase,
    or session termination. *)
Inductive HandlerResult :=
| HOkay (msg : string) (upload : option bytes)
| HFail (msg : string)
| HDownload (size : nat)
| HUpload
| HClose.

(** A handler sees the device and the argument after the first [:]. *)
Definition CommandHandler := DeviceState -> option bytes -> HandlerResult.

(** [class FastbootDevice]: [kCommandMap] is a [const] member, so it is kept
    apart from the mutable state, which is all the handlers can change. *)
Record FastbootDevice := mkFastbootDevice {
  kCommandMap : list (string * CommandHandler);
  dev : DeviceState
}.

(** [std::vector<char>::resize]. *)
Definition resize (n : nat) (b : bytes) : bytes :=
  firstn n b ++ repeat "000"%char (n - length b).

(** Split a command line on its first [:]. *)
Fixpoint split_command (line : bytes) : bytes * option bytes :=
  match line with
  | [] => ([], None)
  | c :: rest =>
      if Ascii.eqb c ":" then ([], Some rest)
      else let '(verb, arg) := split_command rest in (c :: verb, arg)
  end.

(** [kCommandMap.find(verb)]: exact, case-sensitive. *)
Fixpoint find_handler (verb : string) (tbl : list (string * CommandHandler))
    : option CommandHandler :=
  match tbl with
  | [] => None
  | (k, h) :: rest => if String.eqb k verb then Some h else find_handler verb rest
  end.

(** ** The dispatcher *)

(** Modelled from the spec: leaving the session (section 4.6): the
    transport is closed and the dispatcher is in CLOSED. *)
Definition close_session (ds : DeviceState) : DeviceState :=
  mkDeviceState (Close (transport_ ds)) (download_data_ ds) (upload_data_ ds)
    CLOSED.

(** Send the terminal reply of a command; back to COMMAND, or CLOSED when
    the transport can no longer carry it. *)
Definition finish (ds : DeviceState) (t : Transport) (r : FastbootResult)
    (msg : string) : DeviceState :=
  let '(t', ok) := WriteStatus t r msg in
  if ok then set_state (set_transport ds t') COMMAND
  else close_session (set_transport ds t').

(** Modelled from the spec: one round of [FastbootDevice::ExecuteCommands]
    (declared at fastboot_device.h:36): read one line of at most 64
    bytes, look its verb up in [kCommandMap], run the handler and carry
    out what it asks for. *)
Definition ExecuteCommand (tbl : list (string * CommandHandler))
    (ds : DeviceState) : DeviceState :=
  match state_ ds with
  | CLOSED => ds
  | _ =>
    match Read (transport_ ds) FB_RESPONSE_SZ with
    | (t, None) => close_session (set_transport ds t)
    | (t, Some line) =>
      let '(verb, arg) := split_command line in
      match find_handler (string_of_list_ascii verb) tbl with
      | None => finish ds t FAIL "Unrecognized command"
      | Some h =>
        match h ds arg with
        | HOkay msg up =>
            let ds1 := match up with
                       | Some u => set_upload_data ds u
                       | None => ds
                       end in
            finish ds1 t OKAY msg
        | HFail msg => finish ds t FAIL msg
        | HDownload n =>
            let buf := resize n (download_data_ ds) in
            let '(t1, ok1) := WriteStatus t DATA (string_of_list_ascii (hex8 n)) in
            if ok1 then
              let '(t2, buf', ok2) := HandleData t1 true buf in
              let ds2 := set_state (set_download_data ds buf') DOWNLOAD in
              if ok2 then finish ds2 t2 OKAY ""
              else finish ds2 t2 FAIL "Couldn't download data"
            else close_session (set_download_data (set_transport ds t1) buf)
        | HUpload =>
            let buf := upload_data_ ds in
            let '(t1, ok1) :=
              WriteStatus t DATA (string_of_list_ascii (hex8 (length buf))) in
            if ok1 then
              let '(t2, _, ok2) := HandleData t1 false buf in
              let ds2 := set_state ds UPLOAD in
              if ok2 then finish ds2 t2 OKAY ""
              else finish ds2 t2 FAIL "Couldn't upload data"
            else close_session (set_transport ds t1)
        | HClose => close_session (set_transport ds t)
        end
      end
    end
  end.

(** One dispatched command on the whole device: the table is read, never
    written. *)
Definition step (d : FastbootDevice) : FastbootDevice :=
  mkFastbootDevice (kCommandMap d) (ExecuteCommand (kCommandMap d) (dev d)).

(** [ExecuteCommands]: the loop, for at most [fuel] commands; it ends only
    in CLOSED. *)
Fixpoint ExecuteCommands (fuel : nat) (d : FastbootDevice) : FastbootDevice :=
  match fuel with
  | 0 => d
  | S f =>
      match state_ (dev d) with
      | CLOSED => d
      | _ => ExecuteCommands f (step d)
      end
  end.

(** Modelled from the spec: [FastbootDevice::CloseDevice] (declared at
    fastboot_device.h:35). *)
Definition CloseDevice (d : FastbootDevice) : FastbootDevice :=
  mkFastbootDevice (kCommandMap d) (close_session (dev d)).

(** ** Handlers and the table built by the constructor *)

(** Modelled from the spec: [download:<8 hex digits>], bounded by the
    configured maximum buffer size. *)
Definition DownloadHandler (max_download_size : nat) : CommandHandler :=
  fun _ arg =>
    match arg with
    | None => HFail "size argument unspecified"
    | Some a =>
        match parse_hex8 a with
        | None => HFail "Invalid size"
        | Some n =>
            if n <=? max_download_size then HDownload n
            else HFail "Requested size too large"
        end
    end.

(** Modelled from the spec: [upload] sends the upload buffer. *)
Definition UploadHandler : CommandHandler := fun _ _ => HUpload.

(** Modelled from the spec: reboot/continue end the session. *)
Definition RebootHandler : CommandHandler := fun _ _ => HClose.

Definition kCommandMap_init (max_download_size : nat)
    : list (string * CommandHandler) :=
  [("download"%string, DownloadHandler max_download_size);
   ("upload"%string, UploadHandler);
   ("reboot"%string, RebootHandler);
   ("continue"%string, RebootHandler)].

(** Modelled from the spec: [FastbootDevice::FastbootDevice()]; the table is
    built here, once. *)
Definition FastbootDevice_new (max_download_size : nat) (t : Transport)
    : FastbootDevice :=
  mkFastbootDevice (kCommandMap_init max_download_size)
    (mkDeviceState t [] [] IDLE).

(** ** USB adaptor *)

Module Usb.

(** Modelled from the spec: the bulk-in side of the USB client
    ([usb_client.cpp], not in the tree), section 4.2.  A transfer goes out
    as packets of the endpoint's maximum packet size, the last one possibly
    short. *)
Fixpoint packetize (fuel mps : nat) (data : bytes) : list bytes :=
  match fuel with
  | 0 => []
  | S f =>
      match data with
      | [] => []
      | _ => firstn mps data :: packetize f mps (skipn mps data)
      end
  end.

(** Modelled from the spec: a write whose length is a multiple of the
    maximum packet size is followed by a zero-length packet. *)
Definition usb_write (mps : nat) (data : bytes) : list bytes :=
  packetize (length data) mps data
  ++ (if length data mod mps =? 0 then [[]] else []).

End Usb.

(** ** UDP adaptor, receiving side *)

Module Udp.

(** Modelled from the spec: the packets of the reliable UDP layer
    ([udp.cpp], not in the tree), section 4.4. *)
Inductive Packet :=
| PInit (version mtu : nat)
| PData (seq : nat) (continuation : bool) (payload : bytes)
| PAck (seq : nat)
| PError.

Inductive Conn :=
| Uninitialized
| Connected (mtu : nat) (highest : option nat)
| Closed.

(** Receiver: connection state, local MTU, payloads handed to the data
    transfer manager, packets sent back. *)
Record Rx := mkRx {
  rx_conn : Conn;
  rx_local_mtu : nat;
  rx_delivered : list bytes;
  rx_sent : list Packet
}.

Definition kVersion := 1.

(** The id the receiver accepts next. *)
Definition next_expected (highest : option nat) : nat :=
  match highest with None => 0 | Some k => S k end.

(** Modelled from the spec: receiving one packet.  Handshake: a supported
    INIT fixes the MTU as the minimum of both sides; otherwise ERROR and
    stay uninitialised.  Data: an id at or below the highest accepted one is
    a duplicate, acknowledged again but not delivered; the next id is
    delivered and acknowledged; anything further ahead closes the session. *)
Definition rx_recv (p : Packet) (r : Rx) : Rx :=
  match rx_conn r, p with
  | Uninitialized, PInit v m =>
      if v =? kVersion then
        let mtu := Nat.min (rx_local_mtu r) m in
        mkRx (Connected mtu None) (rx_local_mtu r) (rx_delivered r)
          (rx_sent r ++ [PInit kVersion mtu])
      else mkRx Uninitialized (rx_local_mtu r) (rx_delivered r)
             (rx_sent r ++ [PError])
  | Connected mtu h, PData n _ pl =>
      match h with
      | Some k =>
          if n <=? k then
            mkRx (Connected mtu h) (rx_local_mtu r) (rx_delivered r)
              (rx_sent r ++ [PAck n])
          else if n =? S k then
            mkRx (Connected mtu (Some n)) (rx_local_mtu r)
              (rx_delivered r ++ [pl]) (rx_sent r ++ [PAck n])
          else mkRx Closed (rx_local_mtu r) (rx_delivered r) (rx_sent r)
      | None =>
          if n =? 0 then
            mkRx (Connected mtu (Some n)) (rx_local_mtu r)
              (rx_delivered r ++ [pl]) (rx_sent r ++ [PAck n])
          else mkRx Closed (rx_local_mtu r) (rx_delivered r) (rx_sent r)
      end
  | _, _ => r
  end.

(** What the receiver sent back while going from [r] to [r']. *)
Definition emitted (r r' : Rx) : list Packet :=
  skipn (length (rx_sent r)) (rx_sent r').

Definition is_ack_of (n : nat) (ps : list Packet) : bool :=
  match ps with
  | [PAck m] => m =? n
  | _ => false
  end.

(** Modelled from the spec: the sender's retransmission loop for one DATA
    packet over a link that may drop the receiver's ACKs ([ack_lost], one
    entry per transmission).  On a timeout the packet is sent again
    unchanged; after [retries] transmissions without an ACK it gives up.
    Returns the receiver, the number of transmissions and whether an ACK
    arrived. *)
Fixpoint arq_send (retries : nat) (ack_lost : list bool) (n : nat)
    (cont : bool) (pl : bytes) (r : Rx) : Rx * nat * bool :=
  match retries with
  | 0 => (r, 0, false)
  | S k =>
      let r' := rx_recv (PData n cont pl) r in
      let '(lost, rest) := match ack_lost with
                           | [] => (false, [])
                           | b :: l => (b, l)
                           end in
      if is_ack_of n (emitted r r') && negb lost then (r', 1, true)
      else let '(r'', c, ok) := arq_send k rest n cont pl r' in (r'', S c, ok)
  end.

End Udp.

(** * Properties *)

(** ** Transport facts *)

Lemma Read_block t n t' r : Read t n = (t', r) -> tr_block t' = tr_block t.
Proof.
  unfold Read; destruct (usable t); [|congruence].
  destruct (tr_in t) as [|[p|] rest]; try (intros H; inversion H; reflexivity).
  destruct (length p <=? n); intros H; inversion H; reflexivity.
Qed.

Lemma Write_block t b t' ok : Write t b = (t', ok) -> tr_block t' = tr_block t.
Proof. unfold Write; destruct (usable t); intros H; inversion H; reflexivity. Qed.

Lemma Write_ok t b t' :
  Write t b = (t', true) ->
  usable t = true /\
  t' = mkTransport true (tr_in t) (tr_out t ++ [b]) (tr_block t)
         (link_use (tr_link t)).
Proof. unfold Write; destruct (usable t); intros H; inversion H; auto. Qed.

Lemma Write_fail t b t' : Write t b = (t', false) -> t' = t /\ usable t = false.
Proof. unfold Write; destruct (usable t); intros H; inversion H; auto. Qed.

(** ** The read loop against its specification *)

Lemma read_loop_sound f t rem t' got :
  read_loop f t rem = (t', Some got) -> ReadsExactly t rem t' got.
Proof.
  revert t rem t' got; induction f as [|f IH]; intros t rem t' got H.
  - destruct rem; simpl in H; inversion H; constructor.
  - destruct rem as [|rem']; [simpl in H; inversion H; constructor|].
    cbn [read_loop] in H.
    destruct (Read t (Nat.min (tr_block t) (S rem'))) as [t1 [g|]] eqn:ER;
      [|discriminate].
    destruct (Nat.eqb_spec (length g) (Nat.min (tr_block t) (S rem'))) as [EL|];
      [|discriminate].
    destruct (read_loop f t1 (S rem' - Nat.min (tr_block t) (S rem')))
      as [t2 [more|]] eqn:ERL; [|discriminate].
    inversion H; subst.
    eapply RE_chunk; eauto. lia.
Qed.

Lemma ReadsExactly_length t rem t' got :
  ReadsExactly t rem t' got -> length got = rem.
Proof.
  induction 1 as [|t t1 t2 rem got more Hpos HR HL HRE IH]; [reflexivity|].
  rewrite length_app, HL, IH. lia.
Qed.

Lemma ReadsExactly_block t rem t' got :
  ReadsExactly t rem t' got -> tr_block t' = tr_block t.
Proof.
  induction 1 as [|t t1 t2 rem got more Hpos HR HL HRE IH]; [reflexivity|].
  rewrite IH. eapply Read_block; eauto.
Qed.

(** A derivation only exists when the block size lets the loop progress. *)
Lemma ReadsExactly_progress t rem t' got :
  ReadsExactly t rem t' got -> rem = 0 \/ 0 < tr_block t.
Proof.
  induction 1 as [|t t1 t2 rem got more Hpos HR HL HRE IH]; [left; reflexivity|].
  right. apply Read_block in HR.
  destruct (tr_block t) eqn:EB; [|lia].
  rewrite HR in IH. destruct IH as [IH|IH]; lia.
Qed.

Lemma ReadsExactly_complete t rem t' got :
  ReadsExactly t rem t' got ->
  forall f, rem < f -> read_loop f t rem = (t', Some got).
Proof.
  induction 1 as [t|t t1 t2 rem got more Hpos HR HL HRE IH]; intros f Hf.
  - destruct f; reflexivity.
  - destruct f as [|f]; [lia|].
    destruct rem as [|rem']; [lia|].
    cbn [read_loop]. rewrite HR, HL, Nat.eqb_refl.
    assert (HB : 0 < tr_block t).
    { destruct (ReadsExactly_progress _ _ _ _ (RE_chunk t t1 t2 (S rem') got more
                  Hpos HR HL HRE)); lia. }
    rewrite IH by lia. reflexivity.
Qed.

(** ** The write loop against its specification *)

Lemma write_loop_sound f t data t' :
  write_loop f t data = (t', true) -> WritesExactly t data t'.
Proof.
  revert t data t'; induction f as [|f IH]; intros t data t' H.
  - destruct data; simpl in H; inversion H; constructor.
  - destruct data as [|c cs]; [simpl in H; inversion H; constructor|].
    cbn [write_loop] in H.
    destruct (Write t (firstn (Nat.min (tr_block t) (length (c :: cs))) (c :: cs)))
      as [t1 [|]] eqn:EW; [|inversion H].
    eapply WE_chunk; [discriminate| exact EW | apply IH; exact H].
Qed.

Lemma WritesExactly_progress t data t' :
  WritesExactly t data t' -> data = [] \/ 0 < tr_block t.
Proof.
  induction 1 as [t|t t1 t2 data Hne HW HWE IH]; [left; reflexivity|].
  right. apply Write_block in HW.
  destruct (tr_block t) eqn:EB; [|lia].
  rewrite HW in IH. cbn [Nat.min firstn skipn] in IH.
  destruct IH as [IH|IH]; [congruence|lia].
Qed.

Lemma WritesExactly_complete t data t' :
  WritesExactly t data t' ->
  forall f, length data < f -> write_loop f t data = (t', true).
Proof.
  induction 1 as [t|t t1 t2 data Hne HW HWE IH]; intros f Hf.
  - destruct f; reflexivity.
  - destruct f as [|f]; [lia|].
    assert (HB : 0 < tr_block t).
    { destruct (WritesExactly_progress _ _ _ (WE_chunk t t1 t2 data Hne HW HWE));
        [congruence|lia]. }
    destruct data as [|c cs]; [congruence|].
    cbn [write_loop]. rewrite HW. apply IH.
    rewrite length_skipn. cbn [length] in *. lia.
Qed.

Lemma HandleData_read_ok t data t' got :
  HandleData t true data = (t', got, true) <->
  read_loop (S (length data)) t (length data) = (t', Some got).
Proof.
  unfold HandleData.
  destruct (read_loop (S (length data)) t (length data)) as [t1 [g|]];
    split; intros H; inversion H; reflexivity.
Qed.

Lemma HandleData_write t data t' data' ok :
  HandleData t false data = (t', data', ok) ->
  data' = data /\ write_loop (S (length data)) t data = (t', ok).
Proof.
  unfold HandleData. destruct (write_loop (S (length data)) t data) as [t1 b].
  intros H; inversion H; auto.
Qed.

(** C2: [HandleData] succeeds exactly when its run of block-sized reads
    (resp. writes) moves the whole buffer: a read succeeds iff every
    [Read] of [min(block, remaining)] bytes delivered that many bytes until
    [data->size()] had come in, so a short or failed read means failure;
    a write succeeds iff every block-sized [Write] went through. *)
Theorem HandleData_exact (t : Transport) (data : bytes) :
  (forall t' got,
      HandleData t true data = (t', got, true) <->
      ReadsExactly t (length data) t' got) /\
  (forall t' got,
      HandleData t true data = (t', got, true) -> length got = length data) /\
  (forall t',
      HandleData t false data = (t', data, true) <-> WritesExactly t data t').
Proof.
  split; [|split].
  - intros t' got. rewrite HandleData_read_ok. split.
    + apply read_loop_sound.
    + intros H. apply (ReadsExactly_complete _ _ _ _ H). lia.
  - intros t' got H. apply HandleData_read_ok, read_loop_sound,
      ReadsExactly_length in H. exact H.
  - intros t'. split.
    + intros H. apply HandleData_write in H as [_ H].
      exact (write_loop_sound _ _ _ _ H).
    + intros H. unfold HandleData.
      rewrite (WritesExactly_complete _ _ _ H (S (length data))) by lia.
      reflexivity.
Qed.

(** C10: a successful [HandleData] keeps the buffer's length, and a write
    leaves the buffer as it was. *)
Theorem HandleData_keeps_size (t : Transport) (read : bool) (data : bytes)
    (t' : Transport) (data' : bytes) :
  HandleData t read data = (t', data', true) ->
  length data' = length data /\ (read = false -> data' = data).
Proof.
  destruct read; intros H.
  - split; [|discriminate].
    apply HandleData_read_ok, read_loop_sound, ReadsExactly_length in H. exact H.
  - apply HandleData_write in H as [-> _]. auto.
Qed.

Definition tr_example : Transport :=
  mkTransport true [Some (list_ascii_of_string "abc")] [] 2 None.

Lemma HandleData_keeps_size_witness :
  HandleData tr_example true (repeat "000"%char 3)
    = (mkTransport true [] [] 2 None, list_ascii_of_string "abc", true) /\
  length (list_ascii_of_string "abc") = length (repeat "000"%char 3).
Proof.
  assert (H : HandleData tr_example true (repeat "000"%char 3)
                = (mkTransport true [] [] 2 None, list_ascii_of_string "abc", true))
    by reflexivity.
  split; [exact H|].
  exact (proj1 (HandleData_keeps_size _ _ _ _ _ H)).
Defined.

(** ** Status replies *)

(** C8: every reply [WriteStatus] puts on the wire is one of the four
    4-byte prefixes followed by at most 60 bytes of message, 64 bytes at
    most in all; when the transport refuses it, nothing is written. *)
Theorem WriteStatus_format (t : Transport) (r : FastbootResult) (msg : string) :
  let '(t', ok) := WriteStatus t r msg in
  (ok = false /\ t' = t) \/
  (ok = true /\
   exists reply m,
     tr_out t' = tr_out t ++ [reply] /\
     reply = result_prefix r ++ m /\
     length m <= 60 /\ length reply <= 64 /\
     In (firstn 4 reply)
        (map list_ascii_of_string ["OKAY"; "FAIL"; "DATA"; "INFO"]%string)).
Proof.
  unfold WriteStatus, Write.
  destruct (usable t); [right|left; auto].
  split; [reflexivity|].
  set (m := firstn kMaxMessageSize (ascii_of_string msg)).
  assert (Hm : length m <= 60).
  { unfold m. rewrite length_firstn.
    unfold kMaxMessageSize, FB_RESPONSE_SZ, kResponseReasonSize. lia. }
  exists (result_prefix r ++ m), m.
  assert (Hp : length (result_prefix r) = 4) by (destruct r; reflexivity).
  repeat split; auto.
  - rewrite length_app, Hp. lia.
  - rewrite firstn_app, Hp, Nat.sub_diag, firstn_O, app_nil_r, <- Hp, firstn_all.
    destruct r; simpl; tauto.
Qed.

(** ** Closing *)

(** C9: [CloseDevice] is total and idempotent; the closed device holds no
    transport resources and its dispatcher is in CLOSED. *)
Theorem CloseDevice_idempotent (d : FastbootDevice) :
  CloseDevice (CloseDevice d) = CloseDevice d /\
  tr_open (transport_ (dev (CloseDevice d))) = false /\
  tr_in (transport_ (dev (CloseDevice d))) = [] /\
  state_ (dev (CloseDevice d)) = CLOSED.
Proof. destruct d as [tbl [t dl ul st]]. repeat split. Qed.

(** ** The command table *)

Lemma ExecuteCommands_table n d :
  kCommandMap (ExecuteCommands n d) = kCommandMap d.
Proof.
  revert d; induction n as [|n IH]; intros d; [reflexivity|].
  cbn [ExecuteCommands]. destruct (state_ (dev d)); try reflexivity;
    rewrite IH; reflexivity.
Qed.

(** C7: the table is the one the constructor built, and no dispatcher
    operation (a command with its data phase and error handling, the
    command loop, closing) changes it. *)
Theorem kCommandMap_immutable (d : FastbootDevice) (max_download_size : nat)
    (t : Transport) :
  kCommandMap (step d) = kCommandMap d /\
  kCommandMap (CloseDevice d) = kCommandMap d /\
  (forall n, kCommandMap (ExecuteCommands n d) = kCommandMap d) /\
  (forall n, kCommandMap (ExecuteCommands n (FastbootDevice_new max_download_size t))
             = kCommandMap_init max_download_size).
Proof.
  repeat split; intros; apply ExecuteCommands_table.
Qed.

(** ** Unknown verbs *)

(** C4: a command line whose verb is not in the table gets exactly one
    reply, [FAIL] with a fixed message; the line is consumed, the buffers
    and the table are untouched and the dispatcher is in COMMAND (on an
    open transport whose link is up, so that the reply can be written). *)
Theorem unknown_verb_fails (d : FastbootDevice) (line : bytes)
    (rest : list (option bytes)) :
  state_ (dev d) <> CLOSED ->
  tr_open (transport_ (dev d)) = true ->
  link_up (tr_link (transport_ (dev d))) = true ->
  tr_in (transport_ (dev d)) = Some line :: rest ->
  length line <= FB_RESPONSE_SZ ->
  find_handler (string_of_list_ascii (fst (split_command line))) (kCommandMap d)
    = None ->
  step d =
  mkFastbootDevice (kCommandMap d)
    (mkDeviceState
       (mkTransport true rest
          (tr_out (transport_ (dev d))
           ++ [result_prefix FAIL ++ list_ascii_of_string "Unrecognized command"])
          (tr_block (transport_ (dev d))) (link_use (tr_link (transport_ (dev d)))))
       (download_data_ (dev d)) (upload_data_ (dev d)) COMMAND).
Proof.
  destruct d as [tbl [t dl ul st]]; cbn [dev kCommandMap state_ transport_].
  intros Hst Hopen Hlink Hin Hlen Hfind.
  unfold step, ExecuteCommand; cbn [dev kCommandMap state_ transport_].
  assert (HR : Read t FB_RESPONSE_SZ = (set_in t rest, Some line)).
  { unfold Read, usable. rewrite Hopen, Hlink, Hin.
    apply Nat.leb_le in Hlen. rewrite Hlen. reflexivity. }
  destruct (split_command line) as [verb arg] eqn:ES.
  cbn [fst] in Hfind.
  destruct st; try congruence; rewrite HR, ES; cbv beta iota; rewrite Hfind;
    unfold finish, WriteStatus, Write, set_in, usable; cbn; rewrite Hopen, Hlink;
    reflexivity.
Qed.

Definition dev_example : FastbootDevice :=
  FastbootDevice_new 16
    (mkTransport true [Some (list_ascii_of_string "Upload")] [] 64 None).

Lemma unknown_verb_fails_witness :
  step dev_example =
  mkFastbootDevice (kCommandMap dev_example)
    (mkDeviceState
       (mkTransport true []
          ([] ++ [result_prefix FAIL ++ list_ascii_of_string "Unrecognized command"])
          64 None) [] [] COMMAND).
Proof.
  apply (unknown_verb_fails dev_example (list_ascii_of_string "Upload") []);
    vm_compute; try reflexivity; try discriminate; lia.
Defined.

(** ** Hex sizes *)

Lemma hex_value_digit k : k < 16 -> hex_value (hex_digit k) = Some k.
Proof.
  intros Hk. do 16 (destruct k as [|k]; [reflexivity|]). lia.
Qed.

Lemma hex_digits_length k n : length (hex_digits k n) = k.
Proof.
  revert n; induction k as [|k IH]; intros n; [reflexivity|].
  cbn [hex_digits]. rewrite length_app, IH. cbn. lia.
Qed.

Lemma parse_hex_snoc l c :
  parse_hex (l ++ [c]) =
  match parse_hex l, hex_value c with
  | Some a, Some v => Some (a * 16 + v)
  | _, _ => None
  end.
Proof. unfold parse_hex. rewrite fold_left_app. reflexivity. Qed.

Lemma parse_hex_digits k n : parse_hex (hex_digits k n) = Some (n mod 16 ^ k).
Proof.
  revert n; induction k as [|k IH]; intros n; [reflexivity|].
  cbn [hex_digits]. rewrite parse_hex_snoc, IH,
    hex_value_digit by (apply Nat.mod_upper_bound; lia).
  f_equal. rewrite Nat.pow_succ_r', Nat.Div0.mod_mul_r by
    (try apply Nat.pow_nonzero; lia).
  lia.
Qed.

Lemma parse_hex8_hex8 n : n < 16 ^ 8 -> parse_hex8 (hex8 n) = Some n.
Proof.
  intros Hn. unfold parse_hex8, hex8.
  rewrite hex_digits_length, Nat.eqb_refl, parse_hex_digits, Nat.mod_small
    by exact Hn.
  reflexivity.
Qed.

(** ** Links that carry enough messages *)

(** The link carries at least [k] more messages. *)
Definition link_ok (l : option nat) (k : nat) : Prop :=
  match l with None => True | Some m => k <= m end.

Lemma link_ok_use l k :
  link_ok l (S k) -> link_up l = true /\ link_ok (link_use l) k.
Proof. destruct l as [[|m]|]; cbn; intros H; split; first [reflexivity | exact I | lia]. Qed.

Lemma link_ok_mono l a b : link_ok l a -> b <= a -> link_ok l b.
Proof. destruct l; cbn; intros; [lia | exact I]. Qed.

(** ** Reading a buffer that arrives in block-aligned messages *)

Lemma read_loop_packet f t p rest :
  usable t = true -> 0 < tr_block t -> tr_in t = Some p :: rest ->
  p <> [] -> length p < f ->
  read_loop f t (length p) = (set_in t rest, Some p).
Proof.
  revert t p; induction f as [|f IH]; intros t p Hopen Hblk Hin Hne Hf; [lia|].
  destruct p as [|c cs] eqn:Ep; [congruence|]. rewrite <- Ep in *.
  assert (Hlen : length p = S (length cs)) by (subst; reflexivity).
  rewrite Hlen. cbn [read_loop]. rewrite <- Hlen.
  unfold Read. rewrite Hopen, Hin.
  destruct (Nat.leb_spec (length p) (Nat.min (tr_block t) (length p))) as [Hle|Hgt].
  - rewrite Nat.min_r in * by lia. rewrite Nat.eqb_refl, Nat.sub_diag.
    destruct f; cbn [read_loop]; rewrite app_nil_r; reflexivity.
  - rewrite Nat.min_l in * by lia.
    rewrite length_firstn, Nat.min_l, Nat.eqb_refl by lia.
    assert (Hs : length p - tr_block t = length (skipn (tr_block t) p))
      by (rewrite length_skipn; reflexivity).
    rewrite Hs, (IH (set_in t (Some (skipn (tr_block t) p) :: rest))).
    + rewrite firstn_skipn. reflexivity.
    + exact Hopen.
    + exact Hblk.
    + reflexivity.
    + intros He. apply (f_equal (@length ascii)) in He.
      rewrite length_skipn in He. cbn in He. lia.
    + rewrite length_skipn. lia.
Qed.

(** A message of a whole number of blocks, followed by more data, fills
    one read of a block after another. *)
Lemma read_full_message k p t q rem tf got :
  usable t = true -> 0 < tr_block t -> length p = S k * tr_block t ->
  tr_in t = Some p :: q ->
  ReadsExactly (set_in t q) rem tf got ->
  ReadsExactly t (length p + rem) tf (p ++ got).
Proof.
  revert p t; induction k as [|k IH]; intros p t Hu Hb Hl Hin HRE.
  - assert (HR : Read t (Nat.min (tr_block t) (length p + rem)) = (set_in t q, Some p)).
    { unfold Read. rewrite Hu, Hin, Nat.min_l by lia.
      replace (length p <=? tr_block t) with true; [reflexivity|].
      symmetry. apply Nat.leb_le. lia. }
    apply (RE_chunk t (set_in t q) tf (length p + rem) p got); [lia | exact HR | lia |].
    replace (length p + rem - Nat.min (tr_block t) (length p + rem)) with rem by lia.
    exact HRE.
  - set (b := tr_block t) in *.
    assert (HR : Read t (Nat.min b (length p + rem)) =
                 (set_in t (Some (skipn b p) :: q), Some (firstn b p))).
    { unfold Read. rewrite Hu, Hin, Nat.min_l by lia.
      replace (length p <=? b) with false; [reflexivity|].
      symmetry. apply Nat.leb_gt. lia. }
    rewrite <- (firstn_skipn b p) at 2. rewrite <- app_assoc.
    apply (RE_chunk t (set_in t (Some (skipn b p) :: q)) tf (length p + rem)
             (firstn b p) (skipn b p ++ got));
      [lia | exact HR | rewrite length_firstn; lia |].
    fold b.
    replace (length p + rem - Nat.min b (length p + rem))
      with (length (skipn b p) + rem) by (rewrite length_skipn; lia).
    apply (IH (skipn b p)); [exact Hu | exact Hb | | reflexivity | exact HRE].
    rewrite length_skipn. cbn [tr_block set_in]. fold b. lia.
Qed.

(** Messages of the host's data: none empty, and each one but the last a
    whole number of blocks, so that every read of [min(block, remaining)]
    bytes is filled. *)
Fixpoint aligned (b : nat) (msgs : list bytes) : bool :=
  match msgs with
  | [] => true
  | p :: ms =>
      negb (length p =? 0) &&
      match ms with [] => true | _ => length p mod b =? 0 end &&
      aligned b ms
  end.

Lemma read_aligned msgs :
  forall t rest,
  usable t = true -> 0 < tr_block t -> aligned (tr_block t) msgs = true ->
  tr_in t = map Some msgs ++ rest ->
  ReadsExactly t (length (concat msgs)) (set_in t rest) (concat msgs).
Proof.
  induction msgs as [|p ms IH]; intros t rest Hu Hb Hal Hin.
  - destruct t as [o i out b l]; cbn in Hin |- *. subst i. constructor.
  - cbn [aligned] in Hal.
    apply andb_prop in Hal as [Hal Hms]. apply andb_prop in Hal as [Hne Hmod].
    assert (Hp : p <> []).
    { intros ->. discriminate Hne. }
    destruct ms as [|p' ms'].
    + cbn [concat]. rewrite app_nil_r.
      apply (read_loop_sound (S (length p))).
      apply read_loop_packet; [exact Hu | exact Hb | exact Hin | exact Hp | lia].
    + apply Nat.eqb_eq in Hmod.
      pose proof (Nat.div_mod_eq (length p) (tr_block t)) as Hdm.
      rewrite Hmod, Nat.add_0_r in Hdm.
      destruct (length p / tr_block t) as [|k] eqn:Ek.
      { rewrite Nat.mul_0_r in Hdm. destruct p; [congruence | discriminate]. }
      cbn [concat]. rewrite length_app.
      apply (read_full_message k p t (map Some (p' :: ms') ++ rest));
        [exact Hu | exact Hb | rewrite Hdm; apply Nat.mul_comm | exact Hin |].
      apply (IH (set_in t (map Some (p' :: ms') ++ rest)) rest);
        [exact Hu | exact Hb | exact Hms | reflexivity].
Qed.

(** ** Writing a buffer *)

Lemma write_loop_ok f t data k :
  tr_open t = true -> 0 < tr_block t -> length data < f ->
  link_ok (tr_link t) (length data + k) ->
  exists t', write_loop f t data = (t', true) /\ tr_open t' = true /\
             link_ok (tr_link t') k.
Proof.
  revert t data; induction f as [|f IH]; intros t data Hopen Hblk Hf Hl; [lia|].
  destruct data as [|c cs].
  { exists t. split; [reflexivity|]. split; [exact Hopen | exact Hl]. }
  cbn [length Nat.add] in Hl. apply link_ok_use in Hl as [Hup Hl].
  cbn [write_loop]. unfold Write at 1. unfold usable. rewrite Hopen, Hup.
  cbn [andb].
  apply IH; cbn [tr_open tr_block tr_link]; [reflexivity | exact Hblk | |].
  - rewrite length_skipn. cbn [length] in *. lia.
  - apply (link_ok_mono _ _ _ Hl). rewrite length_skipn. cbn [length]. lia.
Qed.

(** What any write run leaves on the wire: a run of chunks of at most a
    block carrying a prefix of the buffer; the whole buffer exactly when
    the run succeeded. *)
Lemma write_loop_out f t data t' ok :
  write_loop f t data = (t', ok) ->
  exists cs r, tr_out t' = tr_out t ++ cs /\ concat cs ++ r = data /\
    Forall (fun c => length c <= tr_block t) cs /\
    (if ok then r = [] else r <> []).
Proof.
  revert t data; induction f as [|f IH]; intros t data H.
  - destruct data as [|c cs]; inversion H; subst.
    + exists [], []. repeat split; [symmetry; apply app_nil_r | constructor].
    + exists [], (c :: cs). repeat split; [symmetry; apply app_nil_r | constructor | discriminate].
  - destruct data as [|c cs].
    { inversion H; subst. exists [], []. repeat split; [symmetry; apply app_nil_r | constructor]. }
    cbn [write_loop] in H.
    destruct (Write t (firstn (Nat.min (tr_block t) (length (c :: cs))) (c :: cs)))
      as [t1 [|]] eqn:EW.
    + apply Write_ok in EW as [_ ->].
      destruct (IH _ _ H) as (cs' & r & Hout & Hcat & Hall & Hr).
      cbn [tr_out tr_block] in Hout, Hall.
      exists (firstn (Nat.min (tr_block t) (length (c :: cs))) (c :: cs) :: cs'), r.
      split; [rewrite Hout, <- app_assoc; reflexivity|].
      split; [cbn [concat]; rewrite <- app_assoc, Hcat; apply firstn_skipn|].
      split; [constructor; [rewrite length_firstn; lia | exact Hall]|].
      exact Hr.
    + apply Write_fail in EW as [-> _]. inversion H; subst.
      exists [], (c :: cs). repeat split; [symmetry; apply app_nil_r | constructor | discriminate].
Qed.

(** ** Replies and whole commands *)

Lemma WriteStatus_open t r msg :
  usable t = true ->
  WriteStatus t r msg =
  (mkTransport true (tr_in t)
     (tr_out t ++ [result_prefix r ++ firstn kMaxMessageSize (ascii_of_string msg)])
     (tr_block t) (link_use (tr_link t)), true).
Proof. intros H. unfold WriteStatus, Write. rewrite H. reflexivity. Qed.

(** The terminal reply goes out and the dispatcher is back in COMMAND, or
    it cannot go out and the session is CLOSED; the buffers stay. *)
Lemma finish_cases ds t r msg :
  download_data_ (finish ds t r msg) = download_data_ ds /\
  upload_data_ (finish ds t r msg) = upload_data_ ds /\
  ((tr_out (transport_ (finish ds t r msg)) =
      tr_out t ++ [result_prefix r ++ firstn kMaxMessageSize (ascii_of_string msg)] /\
    state_ (finish ds t r msg) = COMMAND) \/
   (tr_out (transport_ (finish ds t r msg)) = tr_out t /\
    state_ (finish ds t r msg) = CLOSED)).
Proof.
  unfold finish, WriteStatus, Write.
  destruct (usable t); cbn; split; auto.
Qed.

Lemma hex8_message n :
  firstn kMaxMessageSize (ascii_of_string (string_of_list_ascii (hex8 n))) = hex8 n.
Proof.
  unfold ascii_of_string. rewrite list_ascii_of_string_of_list_ascii.
  apply firstn_all2. unfold hex8. rewrite hex_digits_length.
  unfold kMaxMessageSize, FB_RESPONSE_SZ, kResponseReasonSize. lia.
Qed.

(** The command line [download:<8 hex digits>]. *)
Definition download_cmd (n : nat) : bytes :=
  list_ascii_of_string "download:" ++ hex8 n.

Definition upload_cmd : bytes := list_ascii_of_string "upload".

(** A [download:<n>] line, read from a usable transport, gets [DATA<n>]
    and starts the data phase on the resized download buffer. *)
Lemma exec_download max t dl ul st n rest :
  st <> CLOSED -> usable t = true -> n <= max -> n < 16 ^ 8 ->
  tr_in t = Some (download_cmd n) :: rest ->
  ExecuteCommand (kCommandMap_init max) (mkDeviceState t dl ul st) =
  let t1 := mkTransport true rest
              (tr_out t ++ [result_prefix DATA ++ hex8 n]) (tr_block t)
              (link_use (tr_link t)) in
  let '(t2, buf', ok2) := HandleData t1 true (resize n dl) in
  let ds2 := mkDeviceState t1 buf' ul DOWNLOAD in
  if ok2 then finish ds2 t2 OKAY ""
  else finish ds2 t2 FAIL "Couldn't download data".
Proof.
  intros Hst Hopen Hmax H16 Hin.
  assert (HR : Read t FB_RESPONSE_SZ = (set_in t rest, Some (download_cmd n))).
  { unfold Read. rewrite Hopen, Hin.
    replace (length (download_cmd n) <=? FB_RESPONSE_SZ) with true; [reflexivity|].
    symmetry. apply Nat.leb_le. unfold download_cmd, hex8.
    rewrite length_app, hex_digits_length. unfold FB_RESPONSE_SZ. cbn. lia. }
  assert (HS : split_command (download_cmd n)
               = (list_ascii_of_string "download", Some (hex8 n)))
    by reflexivity.
  assert (HH : forall ds, DownloadHandler max ds (Some (hex8 n)) = HDownload n).
  { intros ds. unfold DownloadHandler. rewrite parse_hex8_hex8 by exact H16.
    apply Nat.leb_le in Hmax. rewrite Hmax. reflexivity. }
  assert (HF : find_handler (string_of_list_ascii (list_ascii_of_string "download"))
                 (kCommandMap_init max) = Some (DownloadHandler max))
    by reflexivity.
  unfold ExecuteCommand. cbn [state_ transport_].
  destruct st; try congruence; rewrite HR, HS; cbv beta iota; rewrite HF, HH, (WriteStatus_open (set_in t rest)) by exact Hopen;
    rewrite hex8_message; reflexivity.
Qed.

(** An [upload] line, read from a usable transport, gets [DATA<size>] and
    sends the upload buffer. *)
Lemma exec_upload max t dl ul st rest :
  st <> CLOSED -> usable t = true ->
  tr_in t = Some upload_cmd :: rest ->
  ExecuteCommand (kCommandMap_init max) (mkDeviceState t dl ul st) =
  let t1 := mkTransport true rest
              (tr_out t ++ [result_prefix DATA ++ hex8 (length ul)]) (tr_block t)
              (link_use (tr_link t)) in
  let '(t2, _, ok2) := HandleData t1 false ul in
  let ds2 := mkDeviceState t1 dl ul UPLOAD in
  if ok2 then finish ds2 t2 OKAY ""
  else finish ds2 t2 FAIL "Couldn't upload data".
Proof.
  intros Hst Hopen Hin.
  assert (HR : Read t FB_RESPONSE_SZ = (set_in t rest, Some upload_cmd)).
  { unfold Read. rewrite Hopen, Hin. reflexivity. }
  assert (HS : split_command upload_cmd = (upload_cmd, None)) by reflexivity.
  assert (HF : find_handler (string_of_list_ascii upload_cmd) (kCommandMap_init max)
               = Some UploadHandler) by reflexivity.
  unfold ExecuteCommand. cbn [state_ transport_].
  destruct st; try congruence; rewrite HR, HS; cbv beta iota; rewrite HF;
    unfold UploadHandler;
    rewrite (WriteStatus_open (set_in t rest)) by exact Hopen;
    rewrite hex8_message; reflexivity.
Qed.

Lemma resize_length n b : length (resize n b) = n.
Proof.
  unfold resize. rewrite length_app, length_firstn, repeat_length. lia.
Qed.

Lemma exec_download_ok max t dl ul st msgs later :
  st <> CLOSED -> tr_open t = true -> 0 < tr_block t -> link_ok (tr_link t) 2 ->
  aligned (tr_block t) msgs = true ->
  length (concat msgs) <= max -> length (concat msgs) < 16 ^ 8 ->
  tr_in t = Some (download_cmd (length (concat msgs))) :: map Some msgs ++ later ->
  ExecuteCommand (kCommandMap_init max) (mkDeviceState t dl ul st) =
  mkDeviceState
    (mkTransport true later
       (tr_out t ++ [result_prefix DATA ++ hex8 (length (concat msgs));
                     result_prefix OKAY])
       (tr_block t) (link_use (link_use (tr_link t))))
    (concat msgs) ul COMMAND.
Proof.
  intros Hst Hopen Hblk Hl Hal Hmax H16 Hin.
  apply link_ok_use in Hl as [Hup1 Hl]. apply link_ok_use in Hl as [Hup2 _].
  assert (Hu : usable t = true) by (unfold usable; rewrite Hopen, Hup1; reflexivity).
  rewrite (exec_download max t dl ul st _ _ Hst Hu Hmax H16 Hin). cbv zeta.
  set (t1 := mkTransport true (map Some msgs ++ later)
               (tr_out t ++ [result_prefix DATA ++ hex8 (length (concat msgs))])
               (tr_block t) (link_use (tr_link t))).
  assert (Hu1 : usable t1 = true).
  { unfold t1, usable. cbn [tr_open tr_link]. rewrite Hup2. reflexivity. }
  assert (HRE : ReadsExactly t1 (length (concat msgs)) (set_in t1 later) (concat msgs)).
  { apply read_aligned; [exact Hu1 | exact Hblk | exact Hal | reflexivity]. }
  unfold HandleData at 1. rewrite resize_length.
  rewrite (ReadsExactly_complete _ _ _ _ HRE) by lia.
  unfold finish. rewrite WriteStatus_open by exact Hu1.
  cbn. rewrite <- app_assoc. reflexivity.
Qed.

Lemma exec_upload_ok max t dl ul st later :
  st <> CLOSED -> tr_open t = true -> 0 < tr_block t ->
  link_ok (tr_link t) (2 + length ul) ->
  tr_in t = Some upload_cmd :: later ->
  exists t' cs,
    ExecuteCommand (kCommandMap_init max) (mkDeviceState t dl ul st) =
    mkDeviceState t' dl ul COMMAND /\
    tr_out t' = tr_out t ++ [result_prefix DATA ++ hex8 (length ul)] ++ cs
                ++ [result_prefix OKAY] /\
    concat cs = ul /\ Forall (fun c => length c <= tr_block t) cs.
Proof.
  intros Hst Hopen Hblk Hl Hin.
  apply link_ok_use in Hl as [Hup Hl].
  assert (Hu : usable t = true) by (unfold usable; rewrite Hopen, Hup; reflexivity).
  rewrite (exec_upload max t dl ul st later Hst Hu Hin). cbv zeta.
  set (t1 := mkTransport true later
               (tr_out t ++ [result_prefix DATA ++ hex8 (length ul)]) (tr_block t)
               (link_use (tr_link t))).
  destruct (write_loop_ok (S (length ul)) t1 ul 1) as (t2 & HW & Hop2 & Hl2);
    [reflexivity | exact Hblk | lia | eapply link_ok_mono; [exact Hl | lia] |].
  destruct (write_loop_out _ _ _ _ _ HW) as (cs & r & Hout & Hcat & Hall & Hr).
  cbn in Hr. subst r. rewrite app_nil_r in Hcat.
  apply link_ok_use in Hl2 as [Hup2 _].
  unfold HandleData. rewrite HW.
  unfold finish. rewrite WriteStatus_open
    by (unfold usable; rewrite Hop2, Hup2; reflexivity).
  eexists; exists cs. split; [reflexivity|].
  split; [|split; assumption].
  cbn [tr_out]. rewrite Hout. unfold t1. cbn [tr_out].
  rewrite <- !app_assoc. reflexivity.
Qed.

(** ** Download then upload *)

(** Small sizes fit in eight hex digits (without unfolding [16 ^ 8]). *)
Lemma small_size_fits n : n < 256 -> n < 16 ^ 8.
Proof.
  intros Hn. assert (H : 16 ^ 2 <= 16 ^ 8) by (apply Nat.pow_le_mono_r; lia).
  change (16 ^ 2) with 256 in H. lia.
Qed.

Definition s2b (s : string) : bytes := list_ascii_of_string s.

(** A fresh device; the host downloads the single byte [a], then asks for
    an upload. *)
Definition dev_download_upload : FastbootDevice :=
  FastbootDevice_new 16
    (mkTransport true [Some (download_cmd 1); Some (s2b "a"); Some upload_cmd]
       [] 64 None).

(** C1, refuted: the upload sends the upload buffer, not the downloaded
    bytes; here it announces and sends 0 bytes where one was downloaded. *)
Lemma download_upload_counterexample :
  let d2 := step (step dev_download_upload) in
  download_data_ (dev d2) = s2b "a" /\
  tr_out (transport_ (dev d2)) =
    [s2b "DATA00000001"; s2b "OKAY"; s2b "DATA00000000"; s2b "OKAY"] /\
  ~ (exists cs,
       tr_out (transport_ (dev d2)) =
         [result_prefix DATA ++ hex8 1; result_prefix OKAY;
          result_prefix DATA ++ hex8 1] ++ cs ++ [result_prefix OKAY] /\
       concat cs = s2b "a").
Proof.
  cbv zeta.
  assert (H : tr_out (transport_ (dev (step (step dev_download_upload)))) =
              [s2b "DATA00000001"; s2b "OKAY"; s2b "DATA00000000"; s2b "OKAY"])
    by reflexivity.
  split; [reflexivity|]. split; [exact H|].
  rewrite H. intros (cs & Hout & Hcat).
  destruct cs as [|c cs]; [discriminate Hcat|].
  cbn in Hout. inversion Hout.
Qed.

(** C1, amended: [download:<S>] followed by [S] bytes that fill every
    block-sized read (host messages that are not empty and, but for the
    last, a whole number of blocks) leaves those bytes in the download
    buffer ([get_download_data]) and is answered [DATA<S>] then [OKAY]; a
    following [upload] is answered with the size of the upload buffer,
    sends that buffer (untouched by the download) in writes of at most a
    block, and ends with [OKAY].  The link is assumed to carry the replies
    and one write per upload byte. *)
Theorem download_then_upload (max_download_size : nat) (t0 : Transport)
    (dl ul : bytes) (msgs : list bytes) (st : SessionState)
    (rest : list (option bytes)) :
  st <> CLOSED -> tr_open t0 = true -> 0 < tr_block t0 ->
  aligned (tr_block t0) msgs = true ->
  link_ok (tr_link t0) (4 + length ul) ->
  length (concat msgs) <= max_download_size -> length (concat msgs) < 16 ^ 8 ->
  tr_in t0 = Some (download_cmd (length (concat msgs)))
             :: map Some msgs ++ Some upload_cmd :: rest ->
  let d2 := step (step (mkFastbootDevice (kCommandMap_init max_download_size)
                          (mkDeviceState t0 dl ul st))) in
  download_data_ (dev d2) = concat msgs /\ upload_data_ (dev d2) = ul /\
  state_ (dev d2) = COMMAND /\
  exists cs,
    tr_out (transport_ (dev d2)) =
      tr_out t0 ++ [result_prefix DATA ++ hex8 (length (concat msgs));
                    result_prefix OKAY; result_prefix DATA ++ hex8 (length ul)]
      ++ cs ++ [result_prefix OKAY] /\
    concat cs = ul /\ Forall (fun c => length c <= tr_block t0) cs.
Proof.
  intros Hst Hopen Hblk Hal Hl Hmax H16 Hin. cbv zeta.
  assert (H1 := exec_download_ok max_download_size t0 dl ul st msgs _ Hst Hopen
                 Hblk (link_ok_mono _ _ 2 Hl ltac:(lia)) Hal Hmax H16 Hin).
  unfold step. cbn [kCommandMap dev]. rewrite H1.
  destruct (exec_upload_ok max_download_size
              (mkTransport true (Some upload_cmd :: rest)
                 (tr_out t0 ++ [result_prefix DATA ++ hex8 (length (concat msgs));
                                result_prefix OKAY]) (tr_block t0)
                 (link_use (link_use (tr_link t0))))
              (concat msgs) ul COMMAND rest) as (t' & cs & HE & Hout & Hcat & Hall);
    [discriminate | reflexivity | exact Hblk | | reflexivity |].
  { apply link_ok_use in Hl as [_ Hl]. apply link_ok_use in Hl as [_ Hl]. exact Hl. }
  rewrite HE. cbn [download_data_ upload_data_ state_ transport_].
  split; [reflexivity|]. split; [reflexivity|]. split; [reflexivity|].
  exists cs. split; [|split; [exact Hcat | exact Hall]].
  rewrite Hout. cbn [tr_out]. rewrite <- !app_assoc. reflexivity.
Qed.

(** A device in COMMAND whose upload buffer holds [hello]; the host
    downloads [abc] as the messages [ab] and [c] (block size 2), then asks
    for an upload; the link carries nine more messages. *)
Definition tr_download_upload : Transport :=
  mkTransport true
    [Some (download_cmd 3); Some (s2b "ab"); Some (s2b "c"); Some upload_cmd]
    [] 2 (Some 9).

Lemma download_then_upload_witness :
  let d2 := step (step (mkFastbootDevice (kCommandMap_init 16)
                          (mkDeviceState tr_download_upload [] (s2b "hello") COMMAND))) in
  download_data_ (dev d2) = s2b "abc" /\ upload_data_ (dev d2) = s2b "hello" /\
  state_ (dev d2) = COMMAND /\
  exists cs,
    tr_out (transport_ (dev d2)) =
      [s2b "DATA00000003"; s2b "OKAY"; s2b "DATA00000005"] ++ cs ++ [s2b "OKAY"] /\
    concat cs = s2b "hello" /\ Forall (fun c => length c <= 2) cs.
Proof.
  exact (download_then_upload 16 tr_download_upload [] (s2b "hello")
           [s2b "ab"; s2b "c"] COMMAND [] ltac:(discriminate) eq_refl
           ltac:(cbn; lia) eq_refl ltac:(cbn; lia) ltac:(cbn; lia)
           ltac:(apply small_size_fits; cbn; lia) eq_refl).
Defined.

(** ** Failed data phases *)

Lemma Read_out t n t' r : Read t n = (t', r) -> tr_out t' = tr_out t.
Proof.
  unfold Read; destruct (usable t); [|congruence].
  destruct (tr_in t) as [|[p|] rest]; try (intros H; inversion H; reflexivity).
  destruct (length p <=? n); intros H; inversion H; reflexivity.
Qed.

Lemma read_loop_out f t rem t' r :
  read_loop f t rem = (t', r) -> tr_out t' = tr_out t.
Proof.
  revert t rem t' r; induction f as [|f IH]; intros t rem t' r H.
  - destruct rem; inversion H; reflexivity.
  - destruct rem as [|rem']; [inversion H; reflexivity|].
    cbn [read_loop] in H.
    destruct (Read t (Nat.min (tr_block t) (S rem'))) as [t1 [g|]] eqn:ER.
    + apply Read_out in ER.
      destruct (length g =? Nat.min (tr_block t) (S rem')).
      * destruct (read_loop f t1 (S rem' - Nat.min (tr_block t) (S rem')))
          as [t2 [m|]] eqn:EL; inversion H; subst;
          rewrite (IH _ _ _ _ EL); exact ER.
      * inversion H; subst; exact ER.
    + inversion H; subst. eapply Read_out; eauto.
Qed.

(** The replies that end a failed data phase. *)
Definition download_fail_reply : bytes :=
  result_prefix FAIL ++ s2b "Couldn't download data".

Definition upload_fail_reply : bytes :=
  result_prefix FAIL ++ s2b "Couldn't upload data".

(** C3, amended: a data phase is never reported as a success unless it
    moved the whole buffer.  A [download:<n>] ends with [OKAY] only after
    exactly [n] bytes came in through full block-sized reads; a failed one
    leaves the download buffer empty, so no partial bytes reach a later
    command, and the host sees [FAIL] (back in COMMAND) or nothing more
    (CLOSED).  An [upload] ends with [OKAY] only after the whole upload
    buffer went out; when a write fails part-way (the link drops) the host
    has a prefix of the buffer followed by [FAIL] or by nothing more
    (CLOSED).  A download leaves the upload buffer as it was, an upload
    leaves both buffers as they were; the download buffer's contents from
    before a failed download are not restored. *)
Theorem data_phase_failure_discards (max_download_size : nat) (t0 : Transport)
    (dl ul : bytes) (st : SessionState) :
  st <> CLOSED -> tr_open t0 = true -> link_up (tr_link t0) = true ->
  (forall (n : nat) (rest : list (option bytes)),
     n <= max_download_size -> n < 16 ^ 8 ->
     tr_in t0 = Some (download_cmd n) :: rest ->
     let ds' := ExecuteCommand (kCommandMap_init max_download_size)
                  (mkDeviceState t0 dl ul st) in
     let t1 := mkTransport true rest
                 (tr_out t0 ++ [result_prefix DATA ++ hex8 n]) (tr_block t0)
                 (link_use (tr_link t0)) in
     upload_data_ ds' = ul /\
     ((length (download_data_ ds') = n /\
       (exists t2, ReadsExactly t1 n t2 (download_data_ ds')) /\
       ((tr_out (transport_ ds') = tr_out t1 ++ [result_prefix OKAY] /\
         state_ ds' = COMMAND) \/
        (tr_out (transport_ ds') = tr_out t1 /\ state_ ds' = CLOSED))) \/
      (download_data_ ds' = [] /\
       ((tr_out (transport_ ds') = tr_out t1 ++ [download_fail_reply] /\
         state_ ds' = COMMAND) \/
        (tr_out (transport_ ds') = tr_out t1 /\ state_ ds' = CLOSED))))) /\
  (forall rest : list (option bytes),
     tr_in t0 = Some upload_cmd :: rest ->
     let ds' := ExecuteCommand (kCommandMap_init max_download_size)
                  (mkDeviceState t0 dl ul st) in
     let t1 := mkTransport true rest
                 (tr_out t0 ++ [result_prefix DATA ++ hex8 (length ul)])
                 (tr_block t0) (link_use (tr_link t0)) in
     download_data_ ds' = dl /\ upload_data_ ds' = ul /\
     exists cs r,
       concat cs ++ r = ul /\ Forall (fun c => length c <= tr_block t0) cs /\
       ((r = [] /\ tr_out (transport_ ds') = tr_out t1 ++ cs ++ [result_prefix OKAY] /\
         state_ ds' = COMMAND) \/
        (r <> [] /\ tr_out (transport_ ds') = tr_out t1 ++ cs ++ [upload_fail_reply] /\
         state_ ds' = COMMAND) \/
        (tr_out (transport_ ds') = tr_out t1 ++ cs /\ state_ ds' = CLOSED))).
Proof.
  intros Hst Hopen Hup.
  assert (Hu : usable t0 = true) by (unfold usable; rewrite Hopen, Hup; reflexivity).
  split.
  - intros n rest Hmax H16 Hin. cbv zeta.
    rewrite (exec_download max_download_size t0 dl ul st n rest Hst Hu Hmax H16 Hin).
    cbv zeta.
    set (t1 := mkTransport true rest
                 (tr_out t0 ++ [result_prefix DATA ++ hex8 n]) (tr_block t0)
                 (link_use (tr_link t0))).
    destruct (HandleData t1 true (resize n dl)) as [[t2 buf'] ok] eqn:EH.
    cbv beta iota zeta.
    destruct ok.
    + pose proof EH as ER.
      apply (proj1 (HandleData_exact t1 (resize n dl)) t2 buf') in ER.
      rewrite resize_length in ER.
      pose proof (ReadsExactly_length _ _ _ _ ER) as HL.
      apply HandleData_read_ok, read_loop_out in EH.
      destruct (finish_cases (mkDeviceState t1 buf' ul DOWNLOAD) t2 OKAY "")
        as (Hd & Hul & Hcase).
      cbn [download_data_ upload_data_] in Hd, Hul.
      split; [exact Hul|]. left. rewrite Hd.
      split; [exact HL|]. split; [exists t2; exact ER|].
      rewrite <- EH. exact Hcase.
    + unfold HandleData in EH.
      destruct (read_loop (S (length (resize n dl))) t1 (length (resize n dl)))
        as [t3 [g|]] eqn:EL; inversion EH; subst t3 buf'.
      apply read_loop_out in EL.
      destruct (finish_cases (mkDeviceState t1 [] ul DOWNLOAD) t2 FAIL
                  "Couldn't download data") as (Hd & Hul & Hcase).
      cbn [download_data_ upload_data_] in Hd, Hul.
      split; [exact Hul|]. right. split; [exact Hd|].
      rewrite <- EL. exact Hcase.
  - intros rest Hin. cbv zeta.
    rewrite (exec_upload max_download_size t0 dl ul st rest Hst Hu Hin).
    cbv zeta.
    set (t1 := mkTransport true rest
                 (tr_out t0 ++ [result_prefix DATA ++ hex8 (length ul)])
                 (tr_block t0) (link_use (tr_link t0))).
    destruct (HandleData t1 false ul) as [[t2 x] ok] eqn:EH.
    apply HandleData_write in EH as [_ EW].
    destruct (write_loop_out _ _ _ _ _ EW) as (cs & r & Hout & Hcat & Hall & Hr).
    cbv beta iota zeta.
    destruct ok.
    + destruct (finish_cases (mkDeviceState t1 dl ul UPLOAD) t2 OKAY "")
        as (Hd & Hul & Hcase).
      cbn [download_data_ upload_data_] in Hd, Hul.
      split; [exact Hd|]. split; [exact Hul|].
      exists cs, r. split; [exact Hcat|]. split; [exact Hall|].
      rewrite Hout, <- app_assoc in Hcase.
      destruct Hcase as [[H1 H2]|[H1 H2]].
      * left. split; [exact Hr|]. split; [exact H1 | exact H2].
      * right; right. split; [exact H1 | exact H2].
    + destruct (finish_cases (mkDeviceState t1 dl ul UPLOAD) t2 FAIL
                  "Couldn't upload data") as (Hd & Hul & Hcase).
      cbn [download_data_ upload_data_] in Hd, Hul.
      split; [exact Hd|]. split; [exact Hul|].
      exists cs, r. split; [exact Hcat|]. split; [exact Hall|].
      rewrite Hout, <- app_assoc in Hcase.
      destruct Hcase as [[H1 H2]|[H1 H2]].
      * right; left. split; [exact Hr|]. split; [exact H1 | exact H2].
      * right; right. split; [exact H1 | exact H2].
Qed.

(** A fresh device first downloads [x], then asks for two bytes and
    sends only one. *)
Definition dev_short_download : FastbootDevice :=
  FastbootDevice_new 16
    (mkTransport true
       [Some (download_cmd 1); Some (s2b "x"); Some (download_cmd 2); Some (s2b "a")]
       [] 64 None).

(** C3, refuted: after the short second download the host has seen
    [FAIL], but the download buffer is not as before the transfer: the
    earlier download [x] is gone. *)
Lemma short_download_counterexample :
  let d1 := step dev_short_download in
  let d2 := step d1 in
  download_data_ (dev d1) = s2b "x" /\
  tr_out (transport_ (dev d2)) =
    [s2b "DATA00000001"; s2b "OKAY"; s2b "DATA00000002"; download_fail_reply] /\
  download_data_ (dev d2) <> download_data_ (dev d1).
Proof.
  cbv zeta. split; [reflexivity|]. split; [reflexivity|].
  vm_compute. discriminate.
Qed.

(** A download of two bytes of which one arrives, over a device holding
    [x]; and an upload of [hello] in blocks of 2 over a link that carries
    two more messages: [DATA00000005] and [he] go out, then the link
    drops. *)
Definition tr_short_download : Transport :=
  mkTransport true [Some (download_cmd 2); Some (s2b "a")] [] 64 None.

Definition tr_cut_upload : Transport :=
  mkTransport true [Some upload_cmd] [] 2 (Some 2).

Lemma data_phase_failure_discards_witness :
  download_data_ (ExecuteCommand (kCommandMap_init 16)
                    (mkDeviceState tr_short_download (s2b "x") [] COMMAND)) = [] /\
  (let ds' := ExecuteCommand (kCommandMap_init 16)
                (mkDeviceState tr_cut_upload [] (s2b "hello") COMMAND) in
   download_data_ ds' = [] /\ upload_data_ ds' = s2b "hello" /\
   state_ ds' = CLOSED /\
   tr_out (transport_ ds') = [s2b "DATA00000005"; s2b "he"]).
Proof.
  destruct (data_phase_failure_discards 16 tr_short_download (s2b "x") [] COMMAND
              ltac:(discriminate) eq_refl eq_refl) as [Hdl _].
  destruct (data_phase_failure_discards 16 tr_cut_upload [] (s2b "hello") COMMAND
              ltac:(discriminate) eq_refl eq_refl) as [_ Hul].
  pose proof (Hdl 2 [Some (s2b "a")] ltac:(lia) ltac:(apply small_size_fits; lia)
                eq_refl) as H1.
  pose proof (Hul [] eq_refl) as H2.
  cbv zeta in H1, H2.
  destruct H1 as [_ [(Hl & _) | (Hd & _)]].
  - vm_compute in Hl. discriminate Hl.
  - split; [exact Hd|].
    destruct H2 as (Hd2 & Hu2 & _).
    split; [exact Hd2|]. split; [exact Hu2|].
    split; vm_compute; reflexivity.
Defined.

(** ** USB zero-length packets *)

Lemma packetize_props f mps data :
  0 < mps -> length data <= f ->
  concat (Usb.packetize f mps data) = data /\
  Forall (fun p => p <> [] /\ length p <= mps) (Usb.packetize f mps data).
Proof.
  intros Hm; revert data; induction f as [|f IH]; intros data Hf.
  - destruct data; [split; [reflexivity | constructor] | cbn in Hf; lia].
  - destruct data as [|c cs]; [split; [reflexivity | constructor]|].
    cbn [Usb.packetize].
    destruct (IH (skipn mps (c :: cs))) as [Hcat Hall];
      [rewrite length_skipn; cbn [length] in *; lia|].
    split.
    + cbn [concat]. rewrite Hcat. apply firstn_skipn.
    + constructor; [|exact Hall]. split.
      * destruct mps; [lia|]. discriminate.
      * rewrite length_firstn. lia.
Qed.

(** C6: a USB write goes out as non-empty packets of at most the maximum
    packet size carrying the data; exactly when the length is a multiple of
    the maximum packet size they are followed by one zero-length packet,
    otherwise no zero-length packet is sent at all. *)
Theorem usb_write_zlp (mps : nat) (data : bytes) :
  0 < mps ->
  (length data mod mps = 0 ->
   exists pkts, Usb.usb_write mps data = pkts ++ [[]] /\ concat pkts = data /\
                Forall (fun p => p <> [] /\ length p <= mps) pkts) /\
  (length data mod mps <> 0 ->
   concat (Usb.usb_write mps data) = data /\
   Forall (fun p => p <> [] /\ length p <= mps) (Usb.usb_write mps data)).
Proof.
  intros Hm.
  destruct (packetize_props (length data) mps data Hm (le_n _)) as [Hcat Hall].
  unfold Usb.usb_write. split; intros Hmod.
  - exists (Usb.packetize (length data) mps data).
    rewrite (proj2 (Nat.eqb_eq _ _) Hmod). auto.
  - rewrite (proj2 (Nat.eqb_neq _ _) Hmod), app_nil_r. auto.
Qed.

Lemma usb_write_zlp_witness :
  Usb.usb_write 4 (s2b "abcd") = [s2b "abcd"] ++ [[]] /\
  Usb.usb_write 4 (s2b "abcde") = [s2b "abcd"; s2b "e"] /\
  concat (Usb.usb_write 4 (s2b "abcde")) = s2b "abcde".
Proof.
  destruct (usb_write_zlp 4 (s2b "abcde") ltac:(lia)) as [_ H].
  split; [reflexivity|]. split; [reflexivity|].
  apply H. vm_compute. discriminate.
Defined.

(** ** UDP deduplication *)

Lemma emitted_app r r' l :
  Udp.rx_sent r' = Udp.rx_sent r ++ l -> Udp.emitted r r' = l.
Proof.
  intros H. unfold Udp.emitted. rewrite H, skipn_app, skipn_all, Nat.sub_diag.
  reflexivity.
Qed.

Lemma rx_recv_next r mtu h c pl :
  Udp.rx_conn r = Udp.Connected mtu h ->
  Udp.rx_recv (Udp.PData (Udp.next_expected h) c pl) r =
  Udp.mkRx (Udp.Connected mtu (Some (Udp.next_expected h))) (Udp.rx_local_mtu r)
    (Udp.rx_delivered r ++ [pl]) (Udp.rx_sent r ++ [Udp.PAck (Udp.next_expected h)]).
Proof.
  intros Hc. unfold Udp.rx_recv. rewrite Hc.
  destruct h as [k|]; cbn [Udp.next_expected].
  - replace (S k <=? k) with false by (symmetry; apply Nat.leb_gt; lia).
    rewrite Nat.eqb_refl. reflexivity.
  - reflexivity.
Qed.

Lemma rx_recv_duplicate r mtu k n c pl :
  Udp.rx_conn r = Udp.Connected mtu (Some k) -> n <= k ->
  Udp.rx_recv (Udp.PData n c pl) r =
  Udp.mkRx (Udp.rx_conn r) (Udp.rx_local_mtu r) (Udp.rx_delivered r)
    (Udp.rx_sent r ++ [Udp.PAck n]).
Proof.
  intros Hc Hn. unfold Udp.rx_recv. rewrite Hc.
  apply Nat.leb_le in Hn. rewrite Hn. reflexivity.
Qed.

(** C5: on a connected receiver, a DATA packet whose id is at or below the
    highest accepted one is acknowledged again and not delivered; and when
    the one ACK of the next packet is lost, the sender transmits it exactly
    twice, both transmissions are acknowledged and the payload is delivered
    once. *)
Theorem udp_duplicate_acked_once (r : Udp.Rx) (mtu : nat) (h : option nat)
    (c : bool) (pl : bytes) (retries : nat) :
  Udp.rx_conn r = Udp.Connected mtu h -> 2 <= retries ->
  (forall k n (c' : bool) (pl' : bytes), h = Some k -> n <= k ->
     Udp.rx_recv (Udp.PData n c' pl') r =
     Udp.mkRx (Udp.rx_conn r) (Udp.rx_local_mtu r) (Udp.rx_delivered r)
       (Udp.rx_sent r ++ [Udp.PAck n])) /\
  Udp.arq_send retries [true] (Udp.next_expected h) c pl r =
  (Udp.mkRx (Udp.Connected mtu (Some (Udp.next_expected h))) (Udp.rx_local_mtu r)
     (Udp.rx_delivered r ++ [pl])
     (Udp.rx_sent r ++ [Udp.PAck (Udp.next_expected h); Udp.PAck (Udp.next_expected h)]),
   2, true).
Proof.
  intros Hc Hr. split.
  - intros k n c' pl' -> Hn. exact (rx_recv_duplicate r mtu k n c' pl' Hc Hn).
  - destruct retries as [|[|retries]]; [lia|lia|].
    cbn [Udp.arq_send]. rewrite (rx_recv_next r mtu h c pl Hc).
    set (e := Udp.next_expected h).
    rewrite (emitted_app r _ [Udp.PAck e]) by reflexivity.
    cbn [Udp.is_ack_of andb negb]. rewrite Nat.eqb_refl. cbn [andb negb].
    cbn [Udp.arq_send].
    rewrite (rx_recv_duplicate _ mtu e e c pl) by (reflexivity || lia).
    rewrite (emitted_app _ _ [Udp.PAck e]) by reflexivity.
    cbn [Udp.is_ack_of Udp.rx_conn Udp.rx_local_mtu Udp.rx_delivered Udp.rx_sent].
    rewrite Nat.eqb_refl. cbn. rewrite <- app_assoc. reflexivity.
Qed.

Definition rx_example : Udp.Rx :=
  Udp.mkRx (Udp.Connected 512 (Some 3)) 512 [s2b "p0"] [].

Lemma udp_duplicate_acked_once_witness :
  Udp.arq_send 5 [true] 4 false (s2b "p4") rx_example =
  (Udp.mkRx (Udp.Connected 512 (Some 4)) 512 [s2b "p0"; s2b "p4"]
     [Udp.PAck 4; Udp.PAck 4], 2, true) /\
  Udp.rx_recv (Udp.PData 2 false (s2b "p2")) rx_example =
  Udp.mkRx (Udp.Connected 512 (Some 3)) 512 [s2b "p0"] [Udp.PAck 2].
Proof.
  destruct (udp_duplicate_acked_once rx_example 512 (Some 3) false (s2b "p4") 5
              eq_refl ltac:(lia)) as [Hdup Harq].
  split; [exact Harq|].
  exact (Hdup 3 2 false (s2b "p2") eq_refl ltac:(lia)).
Defined.
